(** * Wonder, a Telegram relay bot: the conversation store, the prompt
      assembly and the update handlers of [bot.py]

    The Python module keeps one process-wide [defaultdict(list)] from user
    ids to lists of [(role, content)] tuples, builds the request for the
    completion API from it, and reacts to Telegram updates inside
    [try]/[except] blocks.  Part I embeds the store and the prompt
    assembly as functions over a [gmap]; Part II embeds the handlers in a
    small state-and-exception monad over a world made of the store, the
    temporary files and the log of calls to the transport; Parts III and
    IV hold the properties. *)

From stdpp Require Import gmap strings list.
From Stdlib Require Import ZArith Lia Ascii.

Open Scope string_scope.
Open Scope list_scope.
Open Scope nat_scope.

(* ===================================================================== *)
(** * Part I: conversation store and prompt assembly                      *)
(* ===================================================================== *)

(** A stored turn is the tuple [(role, content)] of line 27. *)
Abbreviation Turn := (string * string)%type.

(** An entry of the request, the dict [{"role": .., "content": ..}]. *)
Record Message : Type := mkMessage { role : string; content : string }.

Global Instance Message_eq_dec : EqDecision Message.
Proof. solve_decision. Defined.

Definition MAX_HISTORY : nat := 10.

(** [l[-n:]] for a positive [n]: the slice starts at [max (len l - n) 0]. *)
Definition slice_last {A : Type} (n : nat) (l : list A) : list A :=
  drop (length l - n) l.

(** [conversation_history[user_id]] on a [defaultdict(list)]: the value the
    expression evaluates to, and the store afterwards (a missing key is
    inserted with an empty list). *)
Definition getitem (user_id : Z) (h : gmap Z (list Turn))
  : list Turn * gmap Z (list Turn) :=
  match h !! user_id with
  | Some l => (l, h)
  | None => ([], <[user_id := []]> h)
  end.

(** The sequence of turns read for a user. *)
Definition get (user_id : Z) (h : gmap Z (list Turn)) : list Turn :=
  (getitem user_id h).1.

(** [conversation_history[user_id].append(x)] *)
Definition list_append (user_id : Z) (x : Turn) (h : gmap Z (list Turn))
  : gmap Z (list Turn) :=
  let '(l, h1) := getitem user_id h in <[user_id := l ++ [x]]> h1.

(** [conversation_history[user_id].clear()] *)
Definition list_clear (user_id : Z) (h : gmap Z (list Turn))
  : gmap Z (list Turn) :=
  let '(_, h1) := getitem user_id h in <[user_id := []]> h1.

(** Lines 41-46. *)
Definition update_conversation_history
    (user_id : Z) (role content : string) (h : gmap Z (list Turn))
  : gmap Z (list Turn) :=
  let h1 := list_append user_id (role, content) h in
  let '(l, h2) := getitem user_id h1 in
  if MAX_HISTORY <? length l then
    let '(l', h3) := getitem user_id h2 in
    <[user_id := slice_last MAX_HISTORY l']> h3
  else h2.

(** A run of appends for one user, oldest first. *)
Definition appends (user_id : Z) (ts : list Turn) (h : gmap Z (list Turn))
  : gmap Z (list Turn) :=
  fold_left (fun acc t => update_conversation_history user_id t.1 t.2 acc) ts h.

(** A call to the messaging SDK: [update.message.reply_text(text)] for an
    update of the given user, or [processing_msg.edit_text(text)]. *)
Inductive TransportCall : Type :=
  | reply_text (user_id : Z) (text : string)
  | edit_text (user_id : Z) (text : string).

Global Instance TransportCall_eq_dec : EqDecision TransportCall.
Proof. solve_decision. Defined.

(** What the process reads from its surroundings during one handler run:
    the environment variable, the formatted clock, and the answers of the
    external services.  [None] (or [false]) stands for a call that raises. *)
Record Env : Type := mkEnv {
  (** [os.getenv('SYSTEM_PROMPT')]: [None] when the variable is unset. *)
  SYSTEM_PROMPT : option string;
  (** [current_time.strftime("%A, %B %d, %Y")] *)
  date_str : string;
  (** [current_time.strftime("%-I:%M %p")] *)
  time_str : string;
  (** [client.chat.completions.create(..).choices[0].message.content] *)
  chat_completions_create : list Message → option string;
  (** [context.bot.get_file(file_id)] returns? *)
  get_file : string → bool;
  (** the name of the file [tempfile.NamedTemporaryFile] creates *)
  NamedTemporaryFile : option string;
  (** [voice_file.download_to_drive(name)] returns? *)
  download_to_drive : string → bool;
  (** [client.audio.transcriptions.create(..).text] for a voice file *)
  audio_transcriptions_create : string → option string;
  (** does this call to the transport return, given the calls made so far? *)
  transport_returns : list TransportCall → TransportCall → bool
}.

(** [os.getenv(key, default)] given the variable's value. *)
Definition getenv (value : option string) (default : string) : string :=
  match value with
  | Some v => v
  | None => default
  end.

(** The f-string of line 62. *)
Definition time_aware_prompt (base_prompt date_str time_str : string) : string :=
  base_prompt +:+ " The current date is " +:+ date_str
    +:+ " and the time is " +:+ time_str +:+ " Pacific Time.".

(** Lines 48-72.  The result is the list of messages and the store after
    the read of [conversation_history[user_id]]. *)
Definition build_messages
    (e : Env) (user_id : Z) (new_message : string) (h : gmap Z (list Turn))
  : list Message * gmap Z (list Turn) :=
  let base_prompt := getenv (SYSTEM_PROMPT e) "You are a helpful assistant." in
  let messages :=
    [mkMessage "system" (time_aware_prompt base_prompt (date_str e) (time_str e))] in
  let '(l, h1) := getitem user_id h in
  let messages :=
    fold_left (fun messages '(role, content) => messages ++ [mkMessage role content])
              l messages in
  (messages ++ [mkMessage "user" new_message], h1).

(* ===================================================================== *)
(** * Part II: the handlers                                               *)
(* ===================================================================== *)

(** The state a handler works on: the global [conversation_history], the
    temporary files on disk, and every call made to the transport, oldest
    first (a call is logged whether it returns or raises). *)
Record World : Type := mkWorld {
  conversation_history : gmap Z (list Turn);
  temp_files : gset string;
  transport_log : list TransportCall
}.

(** A computation that may change the world and may raise: [None] is a
    raised exception, and what was changed before it stays changed. *)
Definition Run (A : Type) : Type := World → World * option A.

Definition ret {A} (a : A) : Run A := fun w => (w, Some a).

Definition raise {A} : Run A := fun w => (w, None).

Definition bind {A B} (m : Run A) (k : A → Run B) : Run B :=
  fun w => match m w with
           | (w', Some a) => k a w'
           | (w', None) => (w', None)
           end.

(** [try: body  except Exception: handler] *)
Definition try_except {A} (body handler : Run A) : Run A :=
  fun w => match body w with
           | (w', Some a) => (w', Some a)
           | (w', None) => handler w'
           end.

Notation "'do' x <- m ; k" := (bind m (fun x => k))
  (at level 10, x name, m at level 100, k at level 200, only parsing).

(** ** The primitive effects *)

(** A read of the store that may insert a default entry, and an update. *)
Definition with_store {A} (f : gmap Z (list Turn) → A * gmap Z (list Turn)) : Run A :=
  fun w => let '(a, h) := f (conversation_history w) in
           (mkWorld h (temp_files w) (transport_log w), Some a).

Definition with_history (f : gmap Z (list Turn) → gmap Z (list Turn)) : Run unit :=
  with_store (fun h => (tt, f h)).

Definition transport (e : Env) (c : TransportCall) : Run unit :=
  fun w => (mkWorld (conversation_history w) (temp_files w) (transport_log w ++ [c]),
            if transport_returns e (transport_log w) c then Some tt else None).

Definition guard (ok : bool) : Run unit := if ok then ret tt else raise.

Definition from_option {A} (o : option A) : Run A :=
  match o with
  | Some a => ret a
  | None => raise
  end.

(** [tempfile.NamedTemporaryFile(suffix='.ogg', delete=False)]: the file
    exists from here on; leaving the [with] block closes it and, with
    [delete=False], does not remove it. *)
Definition create_temp_file (e : Env) : Run string :=
  do name <- from_option (NamedTemporaryFile e);
  fun w => (mkWorld (conversation_history w) ({[name]} ∪ temp_files w) (transport_log w),
            Some name).

(** [os.unlink(name)]: raises when there is no such file. *)
Definition os_unlink (name : string) : Run unit :=
  fun w => if decide (name ∈ temp_files w)
           then (mkWorld (conversation_history w) (temp_files w ∖ {[name]})
                         (transport_log w), Some tt)
           else (w, None).

(** ** The fixed texts *)

Definition dquote : string := String "034"%char EmptyString.
Definition newline : string := String "010"%char EmptyString.

Definition greeting_text : string :=
  "Greetings! I am Wonder, your personal AI assistant. Like JARVIS, but with my own unique charm. I'm here to help with anything you need - from complex problems to casual conversation. You can send me text messages or voice notes! How may I assist you today?".

Definition help_text : string :=
  "I'm here to help! You can:" +:+ newline
  +:+ "- Send me text messages" +:+ newline
  +:+ "- Send voice messages" +:+ newline
  +:+ "- Use /clear to reset our conversation" +:+ newline +:+ newline
  +:+ "I'll do my best to assist you with any questions or tasks!".

Definition cleared_text : string :=
  "Conversation history has been cleared. Let's start fresh!".

Definition processing_text : string :=
  "ðŸŽ§ Processing your voice message...".

Definition heard_text (transcribed_text : string) : string :=
  "ðŸŽ¯ I heard: " +:+ dquote +:+ transcribed_text +:+ dquote
  +:+ newline +:+ newline +:+ "ðŸ’­ Thinking...".

Definition voice_apology : string :=
  "I apologize, but I encountered an error processing your voice message. Please try again or send your message as text.".

Definition apology : string :=
  "I apologize, but I encountered an error. Please try again later.".

(** The request [process_message] hands to the completion API (lines
    77-80): the user turn is stored, then the request is built from the
    store and the same text. *)
Definition request (e : Env) (user_id : Z) (message_text : string)
    (h : gmap Z (list Turn)) : list Message :=
  (build_messages e user_id message_text
     (update_conversation_history user_id "user" message_text h)).1.

(** ** The handlers *)

(** Lines 31-35. *)
Definition start (e : Env) (user_id : Z) : Run unit :=
  do _ <- with_history (list_clear user_id);
  transport e (reply_text user_id greeting_text).

(** Lines 37-39. *)
Definition help_command (e : Env) (user_id : Z) : Run unit :=
  transport e (reply_text user_id help_text).

(** Lines 74-94. *)
Definition process_message (e : Env) (user_id : Z) (message_text : string)
  : Run string :=
  do _ <- with_history (update_conversation_history user_id "user" message_text);
  do messages <- with_store (build_messages e user_id message_text);
  do ai_response <- from_option (chat_completions_create e messages);
  do _ <- with_history (update_conversation_history user_id "assistant" ai_response);
  ret ai_response.

(** Lines 96-135. *)
Definition handle_voice (e : Env) (user_id : Z) (file_id : string) : Run unit :=
  try_except
    (do _ <- transport e (reply_text user_id processing_text);
     do _ <- guard (get_file e file_id);
     do temp_file_name <- create_temp_file e;
     do _ <- guard (download_to_drive e file_id);
     do transcribed_text <- from_option (audio_transcriptions_create e file_id);
     do _ <- os_unlink temp_file_name;
     do _ <- transport e (edit_text user_id (heard_text transcribed_text));
     do ai_response <- process_message e user_id transcribed_text;
     transport e (reply_text user_id ai_response))
    (transport e (reply_text user_id voice_apology)).

(** Lines 137-151. *)
Definition handle_message (e : Env) (user_id : Z) (user_message : string)
  : Run unit :=
  try_except
    (do ai_response <- process_message e user_id user_message;
     transport e (reply_text user_id ai_response))
    (transport e (reply_text user_id apology)).

(** Lines 153-157. *)
Definition clear_history (e : Env) (user_id : Z) : Run unit :=
  do _ <- with_history (list_clear user_id);
  transport e (reply_text user_id cleared_text).

(** ** Dispatch (lines 159-172) *)

(** What an update carries, as the filters of [main] tell the kinds apart:
    a command, a text that is not a command, a voice note, anything else. *)
Inductive Payload : Type :=
  | Command (name : string)
  | Text (text : string)
  | Voice (file_id : string)
  | Other.

Record Update : Type := mkUpdate { effective_user : Z; message : Payload }.

Definition dispatch (e : Env) (update : Update) : Run unit :=
  let user_id := effective_user update in
  match message update with
  | Command name =>
      if decide (name = "start") then start e user_id
      else if decide (name = "help") then help_command e user_id
      else if decide (name = "clear") then clear_history e user_id
      else ret tt
  | Voice file_id => handle_voice e user_id file_id
  | Text text => handle_message e user_id text
  | Other => ret tt
  end.

(** The process starts with an empty store and nothing sent; what lies in
    the temporary directory is not the program's to decide. *)
Definition initial (files : gset string) : World := mkWorld ∅ files [].

(** The worlds the process can be in between two updates.  The application
    is built without concurrent updates, so one handler runs to its end
    before the next update is dispatched; each run has surroundings of its
    own. *)
Inductive reachable : World → Prop :=
  | reachable_initial files : reachable (initial files)
  | reachable_dispatch e update w :
      reachable w → reachable (dispatch e update w).1.

(** ** Predicates on stores and runs *)

(** A run keeps a property of the store: it holds afterwards, returned or
    raised, when it held before. *)
Definition keeps {A} (P : gmap Z (list Turn) → Prop) (m : Run A) : Prop :=
  ∀ w, P (conversation_history w) → P (conversation_history (m w).1).

(** [h] agrees with [h0] on every key but [user_id]. *)
Definition same_elsewhere (user_id : Z) (h0 h : gmap Z (list Turn)) : Prop :=
  ∀ v, user_id ≠ v → h !! v = h0 !! v.

Definition stored_role (r : string) : Prop := r = "user" ∨ r = "assistant".

(** Every turn of every stored history has role "user" or "assistant". *)
Definition roles_ok (h : gmap Z (list Turn)) : Prop :=
  ∀ u l, h !! u = Some l → Forall (fun t => stored_role t.1) l.

(** Every stored history fits the window. *)
Definition window_ok (h : gmap Z (list Turn)) : Prop :=
  ∀ u l, h !! u = Some l → length l ≤ MAX_HISTORY.

(** The user whose update a call to the transport answers. *)
Definition call_user (c : TransportCall) : Z :=
  match c with
  | reply_text user_id _ => user_id
  | edit_text user_id _ => user_id
  end.

(** ** Sample surroundings, to run the handlers on *)

(** Every service answers; the completion API echoes a fixed reply. *)
Definition env_up : Env :=
  mkEnv None "Wednesday, November 04, 2026" "9:05 AM"
        (fun _ => Some "Hi there!") (fun _ => true) (Some "/tmp/tmpq1w2e3.ogg")
        (fun _ => true) (fun _ => Some "Hello") (fun _ _ => true).

(** As [env_up], but the completion API raises. *)
Definition env_completion_down : Env :=
  mkEnv None "Wednesday, November 04, 2026" "9:05 AM"
        (fun _ => None) (fun _ => true) (Some "/tmp/tmpq1w2e3.ogg")
        (fun _ => true) (fun _ => Some "Hello") (fun _ _ => true).

(** As [env_up], but the transcription API raises. *)
Definition env_transcription_down : Env :=
  mkEnv None "Wednesday, November 04, 2026" "9:05 AM"
        (fun _ => Some "Hi there!") (fun _ => true) (Some "/tmp/tmpq1w2e3.ogg")
        (fun _ => true) (fun _ => None) (fun _ _ => true).

(** As [env_up], but [SYSTEM_PROMPT] is set to the empty string. *)
Definition env_empty_prompt : Env :=
  mkEnv (Some "") "Wednesday, November 04, 2026" "9:05 AM"
        (fun _ => Some "Hi there!") (fun _ => true) (Some "/tmp/tmpq1w2e3.ogg")
        (fun _ => true) (fun _ => Some "Hello") (fun _ _ => true).

(** As [env_up], but every call to the transport raises. *)
Definition env_transport_down : Env :=
  mkEnv None "Wednesday, November 04, 2026" "9:05 AM"
        (fun _ => Some "Hi there!") (fun _ => true) (Some "/tmp/tmpq1w2e3.ogg")
        (fun _ => true) (fun _ => Some "Hello") (fun _ _ => false).

(** As [env_up], but the download of the voice file raises. *)
Definition env_download_down : Env :=
  mkEnv None "Wednesday, November 04, 2026" "9:05 AM"
        (fun _ => Some "Hi there!") (fun _ => true) (Some "/tmp/tmpq1w2e3.ogg")
        (fun _ => false) (fun _ => Some "Hello") (fun _ _ => true).

(** Twelve user turns, two more than the window holds. *)
Definition twelve_turns : list Turn :=
  (fun c => ("user", c)) <$>
    ["a"; "b"; "c"; "d"; "e"; "f"; "g"; "h"; "i"; "j"; "k"; "l"].

(** How often the user entry for [text] occurs in a request. *)
Definition occurrences (text : string) (messages : list Message) : nat :=
  length (filter (fun m => m = mkMessage "user" text) messages).

(** How many entries of a request carry the system role. *)
Definition system_entries (messages : list Message) : nat :=
  length (filter (fun m => role m = "system") messages).

(** The request entry a stored turn becomes (line 68). *)
Definition turn_message (t : Turn) : Message := mkMessage t.1 t.2.

(* ===================================================================== *)
(** * Part III: properties                                                *)
(* ===================================================================== *)

Section store_facts.
Implicit Types (h : gmap Z (list Turn)) (u v : Z) (t : Turn) (l ts : list Turn).

Lemma getitem_insert u l h : getitem u (<[u := l]> h) = (l, <[u := l]> h).
Proof. unfold getitem. by rewrite lookup_insert_eq. Qed.

Lemma getitem_store_get u h : (getitem u h).2 !! u = Some (get u h).
Proof.
  unfold get, getitem. destruct (h !! u) eqn:E; simpl; [done|].
  by rewrite lookup_insert_eq.
Qed.

Lemma getitem_store_ne u v h : u ≠ v → (getitem u h).2 !! v = h !! v.
Proof.
  intros Hne. unfold getitem. destruct (h !! u); simpl; [done|].
  by rewrite lookup_insert_ne.
Qed.

Lemma list_append_eq u t h : list_append u t h = <[u := get u h ++ [t]]> h.
Proof.
  unfold list_append, get, getitem. destruct (h !! u); simpl; [done|].
  by rewrite insert_insert_eq.
Qed.

Lemma list_clear_eq u h : list_clear u h = <[u := []]> h.
Proof.
  unfold list_clear, getitem. destruct (h !! u); simpl; [done|].
  by rewrite insert_insert_eq.
Qed.

Lemma get_insert u l h : get u (<[u := l]> h) = l.
Proof. unfold get. by rewrite getitem_insert. Qed.

Lemma get_insert_ne u v l h : u ≠ v → get v (<[u := l]> h) = get v h.
Proof.
  intros Hne. unfold get, getitem. rewrite lookup_insert_ne by done.
  by destruct (h !! v).
Qed.

(** What one append does to the store, in closed form. *)
Lemma update_conversation_history_eq u r c h :
  update_conversation_history u r c h
  = <[u := slice_last MAX_HISTORY (get u h ++ [(r, c)])]> h.
Proof.
  unfold update_conversation_history.
  rewrite list_append_eq, !getitem_insert, insert_insert_eq. cbv zeta.
  destruct (MAX_HISTORY <? length (get u h ++ [(r, c)])) eqn:E.
  - done.
  - apply Nat.ltb_ge in E. unfold slice_last.
    by rewrite (proj2 (Nat.sub_0_le _ _) E), drop_0.
Qed.

Lemma get_update u r c h :
  get u (update_conversation_history u r c h)
  = slice_last MAX_HISTORY (get u h ++ [(r, c)]).
Proof. by rewrite update_conversation_history_eq, get_insert. Qed.

Lemma lookup_update_ne u v r c h :
  u ≠ v → update_conversation_history u r c h !! v = h !! v.
Proof.
  intros Hne. by rewrite update_conversation_history_eq, lookup_insert_ne.
Qed.

Lemma length_slice_last {A} n (l : list A) : length (slice_last n l) ≤ n.
Proof. unfold slice_last. rewrite length_drop. lia. Qed.

Lemma slice_last_snoc {A} n (l : list A) x :
  slice_last n (slice_last n l ++ [x]) = slice_last n (l ++ [x]).
Proof.
  unfold slice_last. rewrite !length_app, length_drop. simpl.
  rewrite !drop_app, drop_drop, length_drop.
  f_equal; f_equal; lia.
Qed.

Lemma appends_snoc u ts t h :
  appends u (ts ++ [t]) h = update_conversation_history u t.1 t.2 (appends u ts h).
Proof. unfold appends. by rewrite fold_left_app. Qed.

(** After any run of appends the user reads the last [MAX_HISTORY] turns
    of what was there followed by what was appended. *)
Lemma get_appends u ts h :
  ts ≠ [] →
  get u (appends u ts h) = slice_last MAX_HISTORY (get u h ++ ts).
Proof.
  induction ts as [|t ts IH] using rev_ind; [done|]. intros _.
  rewrite appends_snoc, get_update. destruct t as [r c]; simpl.
  destruct ts as [|t' ts'].
  - done.
  - rewrite IH by done. by rewrite slice_last_snoc, (assoc_L (++)).
Qed.

End store_facts.

(** ** The rolling window *)

(** C2.  After [MAX_HISTORY + k] appends ([k >= 1]) for one user, whatever
    the store held before, the user's history is exactly the last
    [MAX_HISTORY] appended turns in their order; after every append on the
    way the history has at most [MAX_HISTORY] turns (and at the start too,
    when it had so before); and every append evicts from the front only:
    the old history followed by the new turn is the evicted turns followed
    by the new history, the evicted ones being just the overflow. *)
Theorem history_keeps_last_appends
    (user_id : Z) (ts : list Turn) (k : nat) (h : gmap Z (list Turn)) :
  length ts = MAX_HISTORY + k →
  1 ≤ k →
  get user_id (appends user_id ts h) = drop k ts
  ∧ length (get user_id (appends user_id ts h)) = MAX_HISTORY
  ∧ (∀ j, length (get user_id h) ≤ MAX_HISTORY ∨ 1 ≤ j →
          length (get user_id (appends user_id (take j ts) h)) ≤ MAX_HISTORY)
  ∧ (∀ j t, ts !! j = Some t →
       let before := get user_id (appends user_id (take j ts) h) in
       let after := get user_id (appends user_id (take (S j) ts) h) in
       ∃ evicted,
         before ++ [t] = evicted ++ after
         ∧ length evicted = length (before ++ [t]) - MAX_HISTORY).
Proof.
  intros Hlen Hk.
  assert (Hts : ts ≠ []) by (intros ->; simpl in Hlen; unfold MAX_HISTORY in Hlen; lia).
  assert (Hlast : get user_id (appends user_id ts h) = drop k ts).
  { rewrite get_appends by done. unfold slice_last.
    rewrite length_app, drop_app_ge by lia. f_equal. lia. }
  split; [done|]. split; [rewrite Hlast, length_drop; lia|]. split.
  - intros j [Hh|Hj].
    + destruct (take j ts) as [|t' ts'] eqn:E; [done|].
      rewrite get_appends by done. apply length_slice_last.
    + destruct ts as [|t0 ts0]; [done|]. destruct j as [|j]; [lia|].
      rewrite get_appends by done. apply length_slice_last.
  - intros j t Hj before after. subst before after.
    rewrite (take_S_r _ _ _ Hj), appends_snoc, get_update.
    destruct t as [r c]; simpl.
    set (old := get user_id (appends user_id (take j ts) h) ++ [(r, c)]).
    exists (take (length old - MAX_HISTORY) old). split.
    + unfold slice_last. by rewrite take_drop.
    + rewrite length_take. lia.
Qed.

(** The claim's run at a concrete input: twelve appends to a fresh store. *)
Lemma history_keeps_last_appends_witness :
  get 7%Z (appends 7%Z twelve_turns ∅) = drop 2 twelve_turns
  ∧ length (get 7%Z (appends 7%Z twelve_turns ∅)) = MAX_HISTORY.
Proof.
  destruct (history_keeps_last_appends 7%Z twelve_turns 2 ∅) as (H1 & H2 & _).
  - reflexivity.
  - lia.
  - split; [exact H1 | exact H2].
Defined.

(** ** The assembled request *)

Section assembly_facts.
Implicit Types (h : gmap Z (list Turn)) (u : Z) (l : list Turn)
  (ms : list Message) (e : Env).

Lemma history_loop l ms :
  fold_left (fun messages '(role, content) => messages ++ [mkMessage role content])
            l ms
  = ms ++ (turn_message <$> l).
Proof.
  revert ms. induction l as [|[r c] l IH]; intros ms; simpl.
  - by rewrite (right_id_L [] (++)).
  - by rewrite IH, <- (assoc_L (++)).
Qed.

Lemma build_messages_eq e u new h :
  build_messages e u new h
  = (mkMessage "system"
       (time_aware_prompt (getenv (SYSTEM_PROMPT e) "You are a helpful assistant.")
                          (date_str e) (time_str e))
       :: (turn_message <$> get u h) ++ [mkMessage "user" new],
     (getitem u h).2).
Proof.
  unfold build_messages, get. destruct (getitem u h) as [l h1]; simpl.
  by rewrite history_loop.
Qed.

Lemma system_entries_history l :
  Forall (fun t => t.1 ≠ "system") l →
  filter (fun m => role m = "system") (turn_message <$> l) = [].
Proof.
  induction 1 as [|t l Ht _ IH]; [done|]. simpl.
  rewrite filter_cons_False by done. exact IH.
Qed.

Lemma prefix_append (p s : string) : String.prefix p (p +:+ s) = true.
Proof.
  induction p as [|a p IH]; simpl; [by destruct s|].
  destruct (ascii_dec a a); [exact IH | done].
Qed.

Lemma occurrences_app text ms1 ms2 :
  occurrences text (ms1 ++ ms2) = occurrences text ms1 + occurrences text ms2.
Proof. unfold occurrences. by rewrite filter_app, length_app. Qed.

(** The turn just stored is the last one the user reads. *)
Lemma get_update_snoc u r c h :
  ∃ kept, get u (update_conversation_history u r c h) = kept ++ [(r, c)].
Proof.
  rewrite get_update. unfold slice_last.
  exists (drop (length (get u h ++ [(r, c)]) - MAX_HISTORY) (get u h)).
  rewrite drop_app_le; [done|].
  rewrite length_app. simpl. unfold MAX_HISTORY. lia.
Qed.

(** On the path of [process_message] the new text is in the request at
    least twice: once read back from the store, once added by
    [build_messages]. *)
Lemma request_repeats_new_message e u text h :
  2 ≤ occurrences text (request e u text h).
Proof.
  unfold request. rewrite build_messages_eq. simpl.
  destruct (get_update_snoc u "user" text h) as [kept ->].
  rewrite fmap_app. simpl.
  change (?x :: ?l) with ([x] ++ l).
  rewrite !occurrences_app.
  assert (occurrences text [turn_message ("user", text)] = 1) as ->.
  { unfold occurrences, turn_message. simpl.
    by rewrite filter_cons_True, filter_nil. }
  assert (occurrences text [mkMessage "user" text] = 1) as ->.
  { unfold occurrences. by rewrite filter_cons_True, filter_nil. }
  lia.
Qed.

End assembly_facts.

(** C3.  Whatever the store holds, the request built for a user is one
    system-role entry, then the user's stored turns in their stored order,
    then a user-role entry whose content is the new message; and when no
    stored turn of that user has the system role (as in every store the
    handlers produce), that first entry is the only system-role entry of the
    whole request. *)
Theorem build_messages_shape
    (e : Env) (user_id : Z) (new_message : string) (h : gmap Z (list Turn)) :
  let messages := (build_messages e user_id new_message h).1 in
  (∃ system_message,
      role system_message = "system"
      ∧ messages = system_message :: (turn_message <$> get user_id h)
                     ++ [mkMessage "user" new_message])
  ∧ last messages = Some (mkMessage "user" new_message)
  ∧ (Forall (fun t => t.1 ≠ "system") (get user_id h) →
     system_entries messages = 1).
Proof.
  intros messages. subst messages. rewrite build_messages_eq. cbn [fst].
  split; [|split].
  - eexists. split; [|reflexivity]. reflexivity.
  - by rewrite app_comm_cons, last_snoc.
  - intros Hroles. unfold system_entries.
    rewrite filter_cons_True by done.
    rewrite filter_app, (system_entries_history _ Hroles).
    by rewrite filter_cons_False, filter_nil.
Qed.

(** The shape at a store with two turns for user 1. *)
Lemma build_messages_shape_witness :
  system_entries
    (build_messages env_up 1%Z "And now?"
       (<[1%Z := [("user", "Hello"); ("assistant", "Hi there!")]]> ∅)).1 = 1.
Proof.
  apply (build_messages_shape env_up 1%Z "And now?"
           (<[1%Z := [("user", "Hello"); ("assistant", "Hi there!")]]> ∅)).
  rewrite get_insert. repeat constructor; simpl; discriminate.
Defined.

(** C7, as the code has it.  When [SYSTEM_PROMPT] is unset, the content of
    the system entry starts with the default ["You are a helpful
    assistant."]; when it is set to the empty string nothing is substituted:
    the content is the date sentence alone, starting with a blank. *)
Theorem default_prompt_when_unset
    (e : Env) (user_id : Z) (new_message : string) (h : gmap Z (list Turn)) :
  ∃ system_message,
    head (build_messages e user_id new_message h).1 = Some system_message
    ∧ role system_message = "system"
    ∧ (SYSTEM_PROMPT e = None →
       String.prefix "You are a helpful assistant." (content system_message) = true)
    ∧ (SYSTEM_PROMPT e = Some "" →
       content system_message = time_aware_prompt "" (date_str e) (time_str e)
       ∧ String.prefix " The current date is " (content system_message) = true).
Proof.
  rewrite build_messages_eq. cbn [fst head]. eexists. split; [reflexivity|].
  cbn [role content]. split; [done|]. split.
  - intros ->. cbn [getenv]. apply prefix_append.
  - intros ->. cbn [getenv]. split; [done|]. apply (prefix_append " The current date is ").
Qed.

(** Both halves at sample surroundings. *)
Lemma default_prompt_when_unset_witness :
  (∃ m, head (build_messages env_up 1%Z "Hello" ∅).1 = Some m
        ∧ String.prefix "You are a helpful assistant." (content m) = true)
  ∧ (∃ m, head (build_messages env_empty_prompt 1%Z "Hello" ∅).1 = Some m
          ∧ String.prefix " The current date is " (content m) = true).
Proof.
  split.
  - destruct (default_prompt_when_unset env_up 1%Z "Hello" ∅)
      as (m & Hm & _ & Hunset & _).
    exists m. split; [exact Hm|]. apply Hunset. reflexivity.
  - destruct (default_prompt_when_unset env_empty_prompt 1%Z "Hello" ∅)
      as (m & Hm & _ & _ & Hempty).
    exists m. split; [exact Hm|]. apply Hempty. reflexivity.
Defined.

(** C7 as stated fails for the empty string: with [SYSTEM_PROMPT] set to
    [""] the system content does not start with the default. *)
Lemma empty_prompt_gets_no_default :
  SYSTEM_PROMPT env_empty_prompt = Some ""
  ∧ ∃ system_message,
      head (build_messages env_empty_prompt 1%Z "Hello" ∅).1 = Some system_message
      ∧ String.prefix "You are a helpful assistant." (content system_message) = false.
Proof. split; [reflexivity|]. eexists. split; reflexivity. Qed.

(** C1 at a fresh user who sends "Hello": after the user turn is stored,
    the request built from the store and the same text holds the user entry
    for "Hello" twice. *)
Theorem request_holds_new_message_twice :
  request env_up 1%Z "Hello" ∅
  = [ mkMessage "system"
        "You are a helpful assistant. The current date is Wednesday, November 04, 2026 and the time is 9:05 AM Pacific Time.";
      mkMessage "user" "Hello";
      mkMessage "user" "Hello" ]
  ∧ occurrences "Hello" (request env_up 1%Z "Hello" ∅) = 2.
Proof. split; vm_compute; reflexivity. Qed.

(** ** Runs and what they keep *)

Section run_facts.
Context {P : gmap Z (list Turn) → Prop}.

Lemma keeps_ret {A} (a : A) : keeps P (ret a).
Proof. by intros w. Qed.

Lemma keeps_raise {A} : keeps P (@raise A).
Proof. by intros w. Qed.

Lemma keeps_bind {A B} (m : Run A) (k : A → Run B) :
  keeps P m → (∀ a, keeps P (k a)) → keeps P (bind m k).
Proof.
  intros Hm Hk w Hw. unfold bind. specialize (Hm w Hw).
  destruct (m w) as [w' [a|]]; simpl in *; [by apply Hk | done].
Qed.

Lemma keeps_try_except {A} (body handler : Run A) :
  keeps P body → keeps P handler → keeps P (try_except body handler).
Proof.
  intros Hb Hh w Hw. unfold try_except. specialize (Hb w Hw).
  destruct (body w) as [w' [a|]]; simpl in *; [done | by apply Hh].
Qed.

Lemma keeps_with_store {A} (f : gmap Z (list Turn) → A * gmap Z (list Turn)) :
  (∀ h, P h → P (f h).2) → keeps P (with_store f).
Proof.
  intros Hf w Hw. unfold with_store. specialize (Hf _ Hw).
  by destruct (f (conversation_history w)).
Qed.

Lemma keeps_with_history f : (∀ h, P h → P (f h)) → keeps P (with_history f).
Proof. intros Hf. by apply keeps_with_store. Qed.

Lemma keeps_transport e c : keeps P (transport e c).
Proof. by intros w. Qed.

Lemma keeps_guard ok : keeps P (guard ok).
Proof. destruct ok; [apply keeps_ret | apply keeps_raise]. Qed.

Lemma keeps_from_option {A} (o : option A) : keeps P (from_option o).
Proof. destruct o; [apply keeps_ret | apply keeps_raise]. Qed.

Lemma keeps_create_temp_file e : keeps P (create_temp_file e).
Proof.
  apply keeps_bind; [apply keeps_from_option|]. by intros name w.
Qed.

Lemma keeps_os_unlink name : keeps P (os_unlink name).
Proof. intros w Hw. unfold os_unlink. by case_decide. Qed.

End run_facts.

Create HintDb keeps.
#[local] Hint Resolve keeps_ret keeps_raise keeps_bind keeps_try_except
  keeps_with_store keeps_with_history keeps_transport keeps_guard
  keeps_from_option keeps_create_temp_file keeps_os_unlink : keeps.

Section handler_facts.
Context (P : gmap Z (list Turn) → Prop) (user_id : Z).
Hypothesis P_update : ∀ r c h,
  stored_role r → P h → P (update_conversation_history user_id r c h).
Hypothesis P_clear : ∀ h, P h → P (list_clear user_id h).
Hypothesis P_read : ∀ h, P h → P (getitem user_id h).2.

Lemma keeps_process_message e text : keeps P (process_message e user_id text).
Proof using P_update P_read.
  unfold process_message.
  apply keeps_bind; [apply keeps_with_history; intros; apply P_update; [by left|done]|].
  intros _. apply keeps_bind.
  { apply keeps_with_store. intros h Hh. rewrite build_messages_eq. by apply P_read. }
  intros messages. apply keeps_bind; [auto with keeps|].
  intros ai. apply keeps_bind; [|auto with keeps].
  apply keeps_with_history; intros; apply P_update; [by right|done].
Qed.

Lemma keeps_start e : keeps P (start e user_id).
Proof using P_clear. unfold start. auto with keeps. Qed.

Lemma keeps_clear_history e : keeps P (clear_history e user_id).
Proof using P_clear. unfold clear_history. auto with keeps. Qed.

Lemma keeps_help_command e : keeps P (help_command e user_id).
Proof using Type. unfold help_command. auto with keeps. Qed.

Lemma keeps_handle_message e text : keeps P (handle_message e user_id text).
Proof using P_update P_read.
  unfold handle_message. pose proof (keeps_process_message e text).
  auto with keeps.
Qed.

Lemma keeps_handle_voice e file_id : keeps P (handle_voice e user_id file_id).
Proof using P_update P_read.
  unfold handle_voice. pose proof (keeps_process_message e).
  auto 12 with keeps.
Qed.

End handler_facts.

Lemma keeps_dispatch (P : gmap Z (list Turn) → Prop) e update :
  (∀ r c h, stored_role r → P h →
            P (update_conversation_history (effective_user update) r c h)) →
  (∀ h, P h → P (list_clear (effective_user update) h)) →
  (∀ h, P h → P (getitem (effective_user update) h).2) →
  keeps P (dispatch e update).
Proof.
  intros Hu Hc Hr. unfold dispatch. destruct (message update).
  - repeat case_decide;
      auto using keeps_start, keeps_help_command, keeps_clear_history, keeps_ret.
  - by apply keeps_handle_message.
  - by apply keeps_handle_voice.
  - apply keeps_ret.
Qed.

(** ** Other users' histories *)

Lemma same_elsewhere_update u h0 r c h :
  same_elsewhere u h0 h → same_elsewhere u h0 (update_conversation_history u r c h).
Proof. intros H v Hv. rewrite lookup_update_ne by done. by apply H. Qed.

Lemma same_elsewhere_clear u h0 h :
  same_elsewhere u h0 h → same_elsewhere u h0 (list_clear u h).
Proof.
  intros H v Hv. rewrite list_clear_eq, lookup_insert_ne by done. by apply H.
Qed.

Lemma same_elsewhere_read u h0 h :
  same_elsewhere u h0 h → same_elsewhere u h0 (getitem u h).2.
Proof. intros H v Hv. rewrite getitem_store_ne by done. by apply H. Qed.

(** C10.  A handler run for user [u] leaves the stored history of every
    other user as it was: this holds for [process_message] with its two
    appends, for [start] and [clear_history] with their clear, and for
    whatever handler an update of [u] is dispatched to. *)
Theorem other_users_untouched (e : Env) (u v : Z) (w : World) :
  u ≠ v →
  (∀ text, conversation_history (process_message e u text w).1 !! v
           = conversation_history w !! v)
  ∧ conversation_history (start e u w).1 !! v = conversation_history w !! v
  ∧ conversation_history (clear_history e u w).1 !! v = conversation_history w !! v
  ∧ (∀ payload, conversation_history (dispatch e (mkUpdate u payload) w).1 !! v
                = conversation_history w !! v).
Proof.
  intros Hne.
  assert (Hall : ∀ A (m : Run A),
             keeps (same_elsewhere u (conversation_history w)) m →
             conversation_history (m w).1 !! v = conversation_history w !! v).
  { intros A m Hm. by apply (Hm w). }
  split; [|split; [|split]].
  - intros text. apply Hall, keeps_process_message.
    + intros. by apply same_elsewhere_update.
    + apply same_elsewhere_read.
  - apply Hall, keeps_start, same_elsewhere_clear.
  - apply Hall, keeps_clear_history, same_elsewhere_clear.
  - intros payload. apply Hall, keeps_dispatch; simpl.
    + intros. by apply same_elsewhere_update.
    + apply same_elsewhere_clear.
    + apply same_elsewhere_read.
Qed.

(** User 1 writes and clears while user 2 has a history. *)
Lemma other_users_untouched_witness :
  conversation_history
    (dispatch env_up (mkUpdate 1%Z (Text "Hello"))
       (mkWorld (<[2%Z := [("user", "Hi")]]> ∅) ∅ [])).1 !! 2%Z
  = Some [("user", "Hi")].
Proof.
  destruct (other_users_untouched env_up 1%Z 2%Z
              (mkWorld (<[2%Z := [("user", "Hi")]]> ∅) ∅ [])) as (_ & _ & _ & H).
  - lia.
  - rewrite H. reflexivity.
Defined.

(** ** Roles in the store *)

Lemma roles_ok_insert u l h :
  Forall (fun t => stored_role t.1) l → roles_ok h → roles_ok (<[u := l]> h).
Proof.
  intros Hl Hh u' l'. rewrite lookup_insert. case_decide; [|apply Hh].
  by intros [= <-].
Qed.

Lemma roles_ok_get u h : roles_ok h → Forall (fun t => stored_role t.1) (get u h).
Proof.
  intros Hh. unfold get, getitem.
  destruct (h !! u) as [l|] eqn:E; simpl; [by apply (Hh u) | constructor].
Qed.

Lemma roles_ok_update u r c h :
  stored_role r → roles_ok h → roles_ok (update_conversation_history u r c h).
Proof.
  intros Hr Hh. rewrite update_conversation_history_eq.
  apply roles_ok_insert; [|done]. unfold slice_last. apply Forall_drop.
  apply Forall_app. split; [by apply roles_ok_get|].
  constructor; [exact Hr | constructor].
Qed.

Lemma roles_ok_clear u h : roles_ok h → roles_ok (list_clear u h).
Proof. intros Hh. rewrite list_clear_eq. by apply roles_ok_insert. Qed.

Lemma roles_ok_read u h : roles_ok h → roles_ok (getitem u h).2.
Proof.
  intros Hh. unfold getitem. destruct (h !! u); simpl; [done|].
  by apply roles_ok_insert.
Qed.

Lemma reachable_roles_ok w : reachable w → roles_ok (conversation_history w).
Proof.
  induction 1 as [files|e update w _ IH].
  - intros u l. simpl. by rewrite lookup_empty.
  - apply keeps_dispatch; [| | |exact IH].
    + intros. by apply roles_ok_update.
    + intros. by apply roles_ok_clear.
    + intros. by apply roles_ok_read.
Qed.

(** C8.  In every world the process can reach, by any sequence of updates
    dispatched to the handlers under any surroundings, every turn a user's
    history holds has role "user" or "assistant", never "system". *)
Theorem stored_roles_user_or_assistant (w : World) (user_id : Z) (t : Turn) :
  reachable w →
  t ∈ get user_id (conversation_history w) →
  (t.1 = "user" ∨ t.1 = "assistant") ∧ t.1 ≠ "system".
Proof.
  intros Hw Ht.
  pose proof (roles_ok_get user_id _ (reachable_roles_ok w Hw)) as Hall.
  rewrite Forall_forall in Hall. specialize (Hall t Ht).
  split; [exact Hall|]. by destruct Hall as [-> | ->].
Qed.

(** The world after user 1 sent "Hello" and was answered. *)
Lemma stored_roles_user_or_assistant_witness :
  (("assistant", "Hi there!").1 = "user" ∨ ("assistant", "Hi there!").1 = "assistant")
  ∧ ("assistant", "Hi there!").1 ≠ "system".
Proof.
  apply (stored_roles_user_or_assistant
           (dispatch env_up (mkUpdate 1%Z (Text "Hello")) (initial ∅)).1 1%Z).
  - apply reachable_dispatch, reachable_initial.
  - vm_compute. right. left.
Defined.

(** ** What the handlers compute *)

(** [process_message] in closed form: the completion API is asked with
    [request]; when it answers, both turns are stored; when it raises, only
    the user turn is. *)
Lemma process_message_eq e u text w :
  process_message e u text w
  = let h1 := update_conversation_history u "user" text (conversation_history w) in
    match chat_completions_create e (request e u text (conversation_history w)) with
    | Some ai_response =>
        (mkWorld (update_conversation_history u "assistant" ai_response h1)
                 (temp_files w) (transport_log w), Some ai_response)
    | None => (mkWorld h1 (temp_files w) (transport_log w), None)
    end.
Proof.
  unfold process_message, request, bind, with_history, with_store, from_option.
  cbn [conversation_history temp_files transport_log].
  rewrite build_messages_eq.
  rewrite (update_conversation_history_eq u "user"), getitem_insert, get_insert.
  cbn [fst snd conversation_history temp_files transport_log].
  by destruct (chat_completions_create e _).
Qed.

(** C5.  When the completion API raises on the request of a text message,
    [process_message] raises; after [handle_message] the store is the one
    with the user turn appended and nothing else (so the user's history ends
    with that turn and holds no assistant turn for it), and the one call made
    to the transport is a reply with the fixed apology. *)
Theorem completion_failure_keeps_user_turn
    (e : Env) (user_id : Z) (text : string) (w : World) :
  chat_completions_create e (request e user_id text (conversation_history w)) = None →
  let w' := (handle_message e user_id text w).1 in
  (process_message e user_id text w).2 = None
  ∧ conversation_history w'
    = update_conversation_history user_id "user" text (conversation_history w)
  ∧ last (get user_id (conversation_history w')) = Some ("user", text)
  ∧ transport_log w' = transport_log w ++ [reply_text user_id apology].
Proof.
  intros Hfail w'. subst w'. unfold handle_message, try_except, bind.
  rewrite process_message_eq, Hfail. cbn.
  split; [done|]. split; [done|]. split; [|done].
  destruct (get_update_snoc user_id "user" text (conversation_history w)) as [kept ->].
  apply last_snoc.
Qed.

(** A fresh user sends "Hello" while the completion API is down. *)
Lemma completion_failure_keeps_user_turn_witness :
  get 1%Z (conversation_history
             (handle_message env_completion_down 1%Z "Hello" (initial ∅)).1)
  = [("user", "Hello")]
  ∧ transport_log (handle_message env_completion_down 1%Z "Hello" (initial ∅)).1
    = [reply_text 1%Z apology].
Proof.
  destruct (completion_failure_keeps_user_turn
              env_completion_down 1%Z "Hello" (initial ∅)) as (_ & Hh & _ & Hlog).
  - reflexivity.
  - split.
    + rewrite Hh. reflexivity.
    + rewrite Hlog. reflexivity.
Defined.

(** A voice run in which every step up to the transcription succeeds and
    the transcription raises: the store is untouched, the temporary file is
    still there, and the user got the acknowledgment and the apology. *)
Lemma handle_voice_transcription_raises e u file_id name w :
  transport_returns e (transport_log w) (reply_text u processing_text) = true →
  get_file e file_id = true →
  NamedTemporaryFile e = Some name →
  download_to_drive e file_id = true →
  audio_transcriptions_create e file_id = None →
  (handle_voice e u file_id w).1
  = mkWorld (conversation_history w) ({[name]} ∪ temp_files w)
            (transport_log w ++ [reply_text u processing_text;
                                 reply_text u voice_apology]).
Proof.
  intros Hack Hget Hname Hdown Htr.
  unfold handle_voice, try_except, bind, create_temp_file, bind, transport.
  cbn. rewrite Hack, Hget, Hname. cbn. rewrite Hdown, Htr. cbn.
  by rewrite <- (assoc_L (++)).
Qed.

#[local] Arguments process_message : simpl never.

Lemma unlink_created (name : string) (files : gset string) :
  ({[name]} ∪ files) ∖ {[name]} = files ∖ {[name]}.
Proof.
  apply set_eq. intros x.
  rewrite !elem_of_difference, elem_of_union. tauto.
Qed.

(** A voice run in which everything succeeds deletes the temporary file. *)
Lemma handle_voice_success_unlinks e u file_id name text w :
  transport_returns e (transport_log w) (reply_text u processing_text) = true →
  get_file e file_id = true →
  NamedTemporaryFile e = Some name →
  download_to_drive e file_id = true →
  audio_transcriptions_create e file_id = Some text →
  temp_files (handle_voice e u file_id w).1 = temp_files w ∖ {[name]}.
Proof.
  intros Hack Hget Hname Hdown Htr.
  unfold handle_voice, try_except, bind, create_temp_file, bind, transport, os_unlink.
  cbn. rewrite Hack, Hget, Hname. cbn. rewrite Hdown, Htr. cbn.
  rewrite decide_True by (apply elem_of_union_l, elem_of_singleton; reflexivity).
  cbn. rewrite process_message_eq. cbn.
  destruct (transport_returns e _ (edit_text u _)); cbn;
    [|apply unlink_created].
  destruct (chat_completions_create e _) as [ai_response|]; cbn;
    [|apply unlink_created].
  destruct (transport_returns e _ (reply_text u ai_response)); cbn;
    apply unlink_created.
Qed.

(** C6.  When the transcription of a voice message raises, [handle_voice]
    leaves the whole store exactly as it was, and the last call it makes to
    the transport is a reply with the fixed voice apology.  (The same holds
    when an earlier step raises and the transcription is never reached.) *)
Theorem transcription_failure_leaves_history
    (e : Env) (user_id : Z) (file_id : string) (w : World) :
  audio_transcriptions_create e file_id = None →
  let w' := (handle_voice e user_id file_id w).1 in
  conversation_history w' = conversation_history w
  ∧ last (transport_log w') = Some (reply_text user_id voice_apology).
Proof.
  intros Htr w'. subst w'.
  unfold handle_voice, try_except, bind, create_temp_file, bind, transport.
  cbn.
  destruct (transport_returns e (transport_log w) _); cbn;
    [|split; [done | apply last_snoc]].
  destruct (get_file e file_id); cbn; [|split; [done | apply last_snoc]].
  destruct (NamedTemporaryFile e) as [name|]; cbn;
    [|split; [done | apply last_snoc]].
  destruct (download_to_drive e file_id); cbn;
    [|split; [done | apply last_snoc]].
  rewrite Htr. cbn. split; [done | apply last_snoc].
Qed.

(** User 2 has a history and sends a voice note; the transcription raises. *)
Lemma transcription_failure_leaves_history_witness :
  conversation_history
    (handle_voice env_transcription_down 2%Z "voice-1"
       (mkWorld (<[2%Z := [("user", "Hi")]]> ∅) ∅ [])).1
  = <[2%Z := [("user", "Hi")]]> ∅
  ∧ last (transport_log
            (handle_voice env_transcription_down 2%Z "voice-1"
               (mkWorld (<[2%Z := [("user", "Hi")]]> ∅) ∅ [])).1)
    = Some (reply_text 2%Z voice_apology).
Proof.
  destruct (transcription_failure_leaves_history env_transcription_down 2%Z "voice-1"
              (mkWorld (<[2%Z := [("user", "Hi")]]> ∅) ∅ [])) as [Hh Hlog].
  - reflexivity.
  - split; [exact Hh | exact Hlog].
Defined.

(** C4 at a voice note whose transcription raises: the temporary file that
    was created is still on disk when [handle_voice] is done, while the same
    run with a transcription that answers leaves no file behind. *)
Theorem voice_temp_file_left_behind :
  audio_transcriptions_create env_transcription_down "voice-1" = None
  ∧ temp_files
      (handle_voice env_transcription_down 1%Z "voice-1" (initial ∅)).1
    = {[ "/tmp/tmpq1w2e3.ogg" ]}
  ∧ temp_files (handle_voice env_up 1%Z "voice-1" (initial ∅)).1 = ∅.
Proof. repeat split; vm_compute; reflexivity. Qed.

(** C9.  After [clear_history] (and after [start], which clears the same
    way) the user's history reads empty, whatever it held; clearing twice
    leaves the same store as clearing once. *)
Theorem clear_empties_and_is_idempotent
    (e e' : Env) (user_id : Z) (w : World) :
  get user_id (conversation_history (clear_history e user_id w).1) = []
  ∧ get user_id (conversation_history (start e user_id w).1) = []
  ∧ conversation_history (clear_history e' user_id (clear_history e user_id w).1).1
    = conversation_history (clear_history e user_id w).1
  ∧ list_clear user_id (list_clear user_id (conversation_history w))
    = list_clear user_id (conversation_history w).
Proof.
  unfold clear_history, start, bind, with_history, with_store, transport. cbn.
  rewrite !list_clear_eq, get_insert, insert_insert_eq. done.
Qed.

(* ===================================================================== *)
(** * Part IV: further properties of the store and the handlers           *)
(* ===================================================================== *)

(** ** One append, below and at the cap *)

(** X1.  One append for a user: the turn just appended is always the last
    one read; with fewer than [MAX_HISTORY] turns stored nothing is dropped;
    with exactly [MAX_HISTORY] stored the oldest turn, and only it, goes. *)
Theorem append_below_and_at_cap
    (user_id : Z) (r c : string) (h : gmap Z (list Turn)) :
  last (get user_id (update_conversation_history user_id r c h)) = Some (r, c)
  ∧ (length (get user_id h) < MAX_HISTORY →
     get user_id (update_conversation_history user_id r c h)
     = get user_id h ++ [(r, c)])
  ∧ (length (get user_id h) = MAX_HISTORY →
     get user_id (update_conversation_history user_id r c h)
     = drop 1 (get user_id h) ++ [(r, c)]).
Proof.
  split; [|split].
  - destruct (get_update_snoc user_id r c h) as [kept ->]. apply last_snoc.
  - intros Hlt. rewrite get_update. unfold slice_last.
    rewrite length_app. simpl.
    replace (length (get user_id h) + 1 - MAX_HISTORY) with 0 by lia.
    apply drop_0.
  - intros Heq. rewrite get_update. unfold slice_last.
    rewrite length_app, Heq. simpl.
    rewrite drop_app_le by (rewrite Heq; unfold MAX_HISTORY; lia).
    reflexivity.
Qed.

(** An append to a history of two, and one to a full window. *)
Lemma append_below_and_at_cap_witness :
  get 7%Z (update_conversation_history 7%Z "user" "m"
             (<[7%Z := [("user", "a"); ("assistant", "b")]]> ∅))
  = [("user", "a"); ("assistant", "b"); ("user", "m")]
  ∧ get 7%Z (update_conversation_history 7%Z "user" "m"
               (<[7%Z := take 10 twelve_turns]> ∅))
    = drop 1 (take 10 twelve_turns) ++ [("user", "m")].
Proof.
  split.
  - destruct (append_below_and_at_cap 7%Z "user" "m"
                (<[7%Z := [("user", "a"); ("assistant", "b")]]> ∅))
      as (_ & Hbelow & _).
    rewrite Hbelow; [reflexivity|]. vm_compute. lia.
  - destruct (append_below_and_at_cap 7%Z "user" "m"
                (<[7%Z := take 10 twelve_turns]> ∅)) as (_ & _ & Hat).
    rewrite Hat; reflexivity.
Defined.

(** X2.  Appends for two different users commute: the store does not
    depend on the order in which their turns arrive. *)
Theorem appends_of_different_users_commute
    (u v : Z) (r c r' c' : string) (h : gmap Z (list Turn)) :
  u ≠ v →
  update_conversation_history u r c (update_conversation_history v r' c' h)
  = update_conversation_history v r' c' (update_conversation_history u r c h).
Proof.
  intros Hne. rewrite !update_conversation_history_eq.
  rewrite (get_insert_ne v u) by done.
  rewrite (get_insert_ne u v) by done.
  apply insert_insert_ne. done.
Qed.

Lemma appends_of_different_users_commute_witness :
  update_conversation_history 1%Z "user" "a"
    (update_conversation_history 2%Z "user" "b" ∅)
  = update_conversation_history 2%Z "user" "b"
      (update_conversation_history 1%Z "user" "a" ∅).
Proof. apply (appends_of_different_users_commute 1%Z 2%Z). lia. Defined.

(** ** Reading the store *)



(** X4.  The request [process_message] sends is bounded whatever the store
    held: the system entry, at most [MAX_HISTORY] stored turns, and the new
    message; and it never has fewer than three entries. *)
Theorem request_size_bounded
    (e : Env) (user_id : Z) (text : string) (h : gmap Z (list Turn)) :
  3 ≤ length (request e user_id text h) ≤ MAX_HISTORY + 2.
Proof.
  unfold request. rewrite build_messages_eq. cbn [fst].
  rewrite length_cons, length_app, length_fmap. simpl.
  pose proof (length_slice_last MAX_HISTORY
                (get user_id h ++ [("user", text)])) as Hle.
  rewrite <- get_update in Hle.
  destruct (get_update_snoc user_id "user" text h) as [kept Hkept].
  apply (f_equal length) in Hkept. rewrite length_app in Hkept. simpl in Hkept.
  unfold MAX_HISTORY in Hle. lia.
Qed.

(** ** Invariants of the reachable worlds *)

Lemma window_ok_insert u l h :
  length l ≤ MAX_HISTORY → window_ok h → window_ok (<[u := l]> h).
Proof.
  intros Hl Hh u' l'. rewrite lookup_insert. case_decide; [|apply Hh].
  by intros [= <-].
Qed.

Lemma window_ok_update u r c h :
  window_ok h → window_ok (update_conversation_history u r c h).
Proof.
  intros Hh. rewrite update_conversation_history_eq.
  apply window_ok_insert; [apply length_slice_last | done].
Qed.

Lemma window_ok_clear u h : window_ok h → window_ok (list_clear u h).
Proof.
  intros Hh. rewrite list_clear_eq. apply window_ok_insert; [simpl; lia | done].
Qed.

Lemma window_ok_read u h : window_ok h → window_ok (getitem u h).2.
Proof.
  intros Hh. unfold getitem. destruct (h !! u); simpl; [done|].
  apply window_ok_insert; [simpl; lia | done].
Qed.

Lemma window_ok_get u h : window_ok h → length (get u h) ≤ MAX_HISTORY.
Proof.
  intros Hh. unfold get, getitem.
  destruct (h !! u) as [l|] eqn:E; simpl; [by apply (Hh u) | lia].
Qed.

(** X5.  In every world the process can reach, every user's history holds
    at most [MAX_HISTORY] turns. *)
Theorem reachable_history_bounded (w : World) (user_id : Z) :
  reachable w → length (get user_id (conversation_history w)) ≤ MAX_HISTORY.
Proof.
  intros Hw. apply window_ok_get.
  induction Hw as [files|e update w _ IH].
  - intros u l. simpl. by rewrite lookup_empty.
  - apply keeps_dispatch; [| | |exact IH].
    + intros. by apply window_ok_update.
    + intros. by apply window_ok_clear.
    + intros. by apply window_ok_read.
Qed.

(** The world after an answered message and a voice note of user 1. *)
Lemma reachable_history_bounded_witness :
  length (get 1%Z (conversation_history
     (dispatch env_up (mkUpdate 1%Z (Voice "voice-1"))
        (dispatch env_up (mkUpdate 1%Z (Text "Hello")) (initial ∅)).1).1))
  ≤ MAX_HISTORY.
Proof.
  apply reachable_history_bounded.
  apply reachable_dispatch, reachable_dispatch, reachable_initial.
Defined.

(** X6.  No handler ever removes a user from the store: the users with an
    entry before an update still have one afterwards, whatever the update
    and however the run ends. *)
Theorem store_keys_never_removed (e : Env) (update : Update) (w : World) :
  dom (conversation_history w) ⊆ dom (conversation_history (dispatch e update w).1).
Proof.
  set (K := dom (conversation_history w)).
  apply (keeps_dispatch (fun h => K ⊆ dom h)); [| | |done].
  - intros r c h _ Hh. rewrite update_conversation_history_eq, dom_insert_L.
    by apply union_subseteq_r'.
  - intros h Hh. rewrite list_clear_eq, dom_insert_L. by apply union_subseteq_r'.
  - intros h Hh. unfold getitem. destruct (h !! _); simpl; [done|].
    rewrite dom_insert_L. by apply union_subseteq_r'.
Qed.

(** ** Text messages *)

Lemma process_message_frame e u text w :
  temp_files (process_message e u text w).1 = temp_files w
  ∧ transport_log (process_message e u text w).1 = transport_log w.
Proof.
  rewrite process_message_eq. cbv zeta.
  by destruct (chat_completions_create e _).
Qed.

(** X7.  When the completion API answers, [process_message] returns the
    answer and the user reads the last [MAX_HISTORY] turns of the old history
    followed by the user turn and the assistant turn, in that order; files
    and transport are not touched. *)
Theorem process_message_stores_both_turns
    (e : Env) (user_id : Z) (text ai_response : string) (w : World) :
  chat_completions_create e (request e user_id text (conversation_history w))
  = Some ai_response →
  let w' := (process_message e user_id text w).1 in
  (process_message e user_id text w).2 = Some ai_response
  ∧ get user_id (conversation_history w')
    = slice_last MAX_HISTORY
        (get user_id (conversation_history w)
           ++ [("user", text); ("assistant", ai_response)])
  ∧ temp_files w' = temp_files w
  ∧ transport_log w' = transport_log w.
Proof.
  intros Hok w'. subst w'. rewrite process_message_eq, Hok. cbn.
  split; [done|]. split; [|done].
  rewrite !get_update, slice_last_snoc, <- (assoc_L (++)). reflexivity.
Qed.

(** A fresh user says "Hello" and is answered "Hi there!". *)
Lemma process_message_stores_both_turns_witness :
  get 1%Z (conversation_history (process_message env_up 1%Z "Hello" (initial ∅)).1)
  = [("user", "Hello"); ("assistant", "Hi there!")].
Proof.
  destruct (process_message_stores_both_turns env_up 1%Z "Hello" "Hi there!"
              (initial ∅)) as (_ & Hget & _).
  - reflexivity.
  - rewrite Hget. reflexivity.
Defined.

(** X8.  A text message that is answered and whose reply the transport
    takes: [handle_message] returns, both turns are stored, and the one
    call made to the transport is the reply with the answer. *)
Theorem handle_message_answers
    (e : Env) (user_id : Z) (text ai_response : string) (w : World) :
  chat_completions_create e (request e user_id text (conversation_history w))
  = Some ai_response →
  transport_returns e (transport_log w) (reply_text user_id ai_response) = true →
  handle_message e user_id text w
  = (mkWorld
       (update_conversation_history user_id "assistant" ai_response
          (update_conversation_history user_id "user" text (conversation_history w)))
       (temp_files w)
       (transport_log w ++ [reply_text user_id ai_response]),
     Some tt).
Proof.
  intros Hok Hsend. unfold handle_message, try_except, bind, transport.
  rewrite process_message_eq, Hok. cbn. by rewrite Hsend.
Qed.

Lemma handle_message_answers_witness :
  transport_log (handle_message env_up 1%Z "Hello" (initial ∅)).1
  = [reply_text 1%Z "Hi there!"].
Proof.
  rewrite (handle_message_answers env_up 1%Z "Hello" "Hi there!" (initial ∅));
    reflexivity.
Defined.

(** X9.  A text message that is answered but whose reply the transport
    refuses: the [except] clause then sends the apology after the reply, and
    both turns stay stored although the user never saw the answer. *)
Theorem handle_message_reply_refused
    (e : Env) (user_id : Z) (text ai_response : string) (w : World) :
  chat_completions_create e (request e user_id text (conversation_history w))
  = Some ai_response →
  transport_returns e (transport_log w) (reply_text user_id ai_response) = false →
  (handle_message e user_id text w).1
  = mkWorld
      (update_conversation_history user_id "assistant" ai_response
         (update_conversation_history user_id "user" text (conversation_history w)))
      (temp_files w)
      (transport_log w ++ [reply_text user_id ai_response;
                           reply_text user_id apology]).
Proof.
  intros Hok Hsend. unfold handle_message, try_except, bind, transport.
  rewrite process_message_eq, Hok. cbn. rewrite Hsend. cbn.
  by rewrite <- (assoc_L (++)).
Qed.

Lemma handle_message_reply_refused_witness :
  (handle_message env_transport_down 1%Z "Hello" (initial ∅)).1
  = mkWorld (<[1%Z := [("user", "Hello"); ("assistant", "Hi there!")]]> ∅) ∅
            [reply_text 1%Z "Hi there!"; reply_text 1%Z apology].
Proof.
  rewrite (handle_message_reply_refused env_transport_down 1%Z "Hello" "Hi there!"
             (initial ∅)) by reflexivity.
  vm_compute. reflexivity.
Defined.

(** ** Voice messages *)

(** X10.  A voice note for which every service answers: [handle_voice]
    returns; the transcript is stored as the user turn and the answer as the
    assistant turn; the temporary file is gone; and the transport got, in
    this order, the acknowledgment, the edit showing the transcript, and the
    reply with the answer. *)
Theorem handle_voice_answers
    (e : Env) (user_id : Z) (file_id name text ai_response : string) (w : World) :
  (∀ l c, transport_returns e l c = true) →
  get_file e file_id = true →
  NamedTemporaryFile e = Some name →
  download_to_drive e file_id = true →
  audio_transcriptions_create e file_id = Some text →
  chat_completions_create e (request e user_id text (conversation_history w))
  = Some ai_response →
  handle_voice e user_id file_id w
  = (mkWorld
       (update_conversation_history user_id "assistant" ai_response
          (update_conversation_history user_id "user" text (conversation_history w)))
       (temp_files w ∖ {[name]})
       (transport_log w ++ [reply_text user_id processing_text;
                            edit_text user_id (heard_text text);
                            reply_text user_id ai_response]),
     Some tt).
Proof.
  intros Hsend Hget Hname Hdown Htr Hok.
  unfold handle_voice, try_except, bind, create_temp_file, bind, transport, os_unlink.
  cbn. rewrite !Hsend, Hget, Hname. cbn. rewrite Hdown, Htr. cbn.
  rewrite decide_True by (apply elem_of_union_l, elem_of_singleton; reflexivity).
  cbn. rewrite Hsend, process_message_eq. cbn. rewrite Hok. cbn.
  rewrite Hsend, unlink_created, <- !(assoc_L (++)). reflexivity.
Qed.

Lemma handle_voice_answers_witness :
  handle_voice env_up 1%Z "voice-1" (initial ∅)
  = (mkWorld (<[1%Z := [("user", "Hello"); ("assistant", "Hi there!")]]> ∅) ∅
             [reply_text 1%Z processing_text;
              edit_text 1%Z (heard_text "Hello");
              reply_text 1%Z "Hi there!"],
     Some tt).
Proof.
  rewrite (handle_voice_answers env_up 1%Z "voice-1" "/tmp/tmpq1w2e3.ogg"
             "Hello" "Hi there!" (initial ∅)); reflexivity.
Defined.

(** X11.  A voice note that is transcribed but for which the completion
    API raises: the transcript stays stored as a user turn without an
    assistant turn, the temporary file is gone, and after the
    acknowledgment and the transcript the user gets the voice apology. *)
Theorem handle_voice_completion_raises
    (e : Env) (user_id : Z) (file_id name text : string) (w : World) :
  (∀ l c, transport_returns e l c = true) →
  get_file e file_id = true →
  NamedTemporaryFile e = Some name →
  download_to_drive e file_id = true →
  audio_transcriptions_create e file_id = Some text →
  chat_completions_create e (request e user_id text (conversation_history w)) = None →
  handle_voice e user_id file_id w
  = (mkWorld
       (update_conversation_history user_id "user" text (conversation_history w))
       (temp_files w ∖ {[name]})
       (transport_log w ++ [reply_text user_id processing_text;
                            edit_text user_id (heard_text text);
                            reply_text user_id voice_apology]),
     Some tt).
Proof.
  intros Hsend Hget Hname Hdown Htr Hfail.
  unfold handle_voice, try_except, bind, create_temp_file, bind, transport, os_unlink.
  cbn. rewrite !Hsend, Hget, Hname. cbn. rewrite Hdown, Htr. cbn.
  rewrite decide_True by (apply elem_of_union_l, elem_of_singleton; reflexivity).
  cbn. rewrite Hsend, process_message_eq. cbn. rewrite Hfail. cbn.
  rewrite Hsend, unlink_created, <- !(assoc_L (++)). reflexivity.
Qed.

Lemma handle_voice_completion_raises_witness :
  handle_voice env_completion_down 1%Z "voice-1" (initial ∅)
  = (mkWorld (<[1%Z := [("user", "Hello")]]> ∅) ∅
             [reply_text 1%Z processing_text;
              edit_text 1%Z (heard_text "Hello");
              reply_text 1%Z voice_apology],
     Some tt).
Proof.
  rewrite (handle_voice_completion_raises env_completion_down 1%Z "voice-1"
             "/tmp/tmpq1w2e3.ogg" "Hello" (initial ∅)); reflexivity.
Defined.

(** X12.  A voice note whose download or transcription raises after the
    temporary file was created: the file is still on disk when the handler
    is done, and the store is as it was. *)
Theorem handle_voice_failure_leaves_file
    (e : Env) (user_id : Z) (file_id name : string) (w : World) :
  transport_returns e (transport_log w) (reply_text user_id processing_text) = true →
  get_file e file_id = true →
  NamedTemporaryFile e = Some name →
  download_to_drive e file_id = false ∨ audio_transcriptions_create e file_id = None →
  name ∈ temp_files (handle_voice e user_id file_id w).1
  ∧ conversation_history (handle_voice e user_id file_id w).1 = conversation_history w.
Proof.
  intros Hack Hget Hname Hfail.
  destruct (download_to_drive e file_id) eqn:Hdown.
  - destruct Hfail as [Hfail|Hfail]; [done|].
    rewrite (handle_voice_transcription_raises e user_id file_id name w) by done.
    cbn. split; [|done]. apply elem_of_union_l, elem_of_singleton. reflexivity.
  - unfold handle_voice, try_except, bind, create_temp_file, bind, transport.
    cbn. rewrite Hack, Hget, Hname. cbn. rewrite Hdown. cbn.
    split; [|done]. apply elem_of_union_l, elem_of_singleton. reflexivity.
Qed.

Lemma handle_voice_failure_leaves_file_witness :
  "/tmp/tmpq1w2e3.ogg" ∈ temp_files (handle_voice env_download_down 1%Z "voice-1" (initial ∅)).1.
Proof.
  apply (handle_voice_failure_leaves_file env_download_down 1%Z "voice-1"
           "/tmp/tmpq1w2e3.ogg" (initial ∅)); try reflexivity.
  left. reflexivity.
Defined.

(** ** What a run does to files and transport *)

Ltac log_grows :=
  first
    [ exists []; split; [by rewrite (right_id_L [] (++)) | constructor]
    | rewrite <- ?(assoc_L (++)); eexists; split;
      [reflexivity | repeat constructor] ].

Lemma handle_message_effects e u text w :
  temp_files (handle_message e u text w).1 = temp_files w
  ∧ ∃ new, transport_log (handle_message e u text w).1 = transport_log w ++ new
           ∧ Forall (fun c => call_user c = u) new.
Proof.
  unfold handle_message, try_except, bind, transport.
  rewrite process_message_eq. cbv zeta.
  destruct (chat_completions_create e _) as [ai|]; cbn.
  - destruct (transport_returns e _ _); cbn; (split; [done | log_grows]).
  - split; [done | log_grows].
Qed.

Lemma handle_voice_effects e u file_id w :
  (∀ x, NamedTemporaryFile e ≠ Some x →
        x ∈ temp_files (handle_voice e u file_id w).1 ↔ x ∈ temp_files w)
  ∧ ∃ new, transport_log (handle_voice e u file_id w).1 = transport_log w ++ new
           ∧ Forall (fun c => call_user c = u) new.
Proof.
  unfold handle_voice, try_except, bind, create_temp_file, bind, transport, os_unlink.
  cbn.
  destruct (transport_returns e (transport_log w) _); cbn;
    [|split; [done | log_grows]].
  destruct (get_file e file_id); cbn; [|split; [done | log_grows]].
  destruct (NamedTemporaryFile e) as [name|]; cbn; [|split; [done | log_grows]].
  assert (Hadd : ∀ x, Some name ≠ Some x →
            x ∈ {[name]} ∪ temp_files w ↔ x ∈ temp_files w).
  { intros x Hx. rewrite elem_of_union, elem_of_singleton.
    split; [intros [->|]; [done|done] | by right]. }
  assert (Hdel : ∀ x, Some name ≠ Some x →
            x ∈ ({[name]} ∪ temp_files w) ∖ {[name]} ↔ x ∈ temp_files w).
  { intros x Hx. rewrite unlink_created, elem_of_difference, elem_of_singleton.
    split; [by intros [? _] | intros ?; split; [done | congruence]]. }
  destruct (download_to_drive e file_id); cbn; [|split; [done | log_grows]].
  destruct (audio_transcriptions_create e file_id) as [text|]; cbn;
    [|split; [done | log_grows]].
  rewrite decide_True by (apply elem_of_union_l, elem_of_singleton; reflexivity).
  cbn.
  destruct (transport_returns e _ (edit_text u _)); cbn;
    [|split; [done | log_grows]].
  rewrite process_message_eq. cbn.
  destruct (chat_completions_create e _) as [ai|]; cbn;
    [|split; [done | log_grows]].
  destruct (transport_returns e _ (reply_text u ai)); cbn;
    (split; [done | log_grows]).
Qed.

Lemma command_effects e u w (m : Run unit)
    (f : gmap Z (list Turn) → gmap Z (list Turn)) text :
  m = (do _ <- with_history f; transport e (reply_text u text)) →
  temp_files (m w).1 = temp_files w
  ∧ ∃ new, transport_log (m w).1 = transport_log w ++ new
           ∧ Forall (fun c => call_user c = u) new.
Proof. intros ->. cbn. split; [done | log_grows]. Qed.

(** X13.  Whatever the update and however the run ends, a handler run
    neither creates nor deletes any file but the temporary file of that
    run; text messages and commands leave the files exactly as they were. *)
Theorem other_files_untouched (e : Env) (update : Update) (w : World) :
  (∀ x, NamedTemporaryFile e ≠ Some x →
        x ∈ temp_files (dispatch e update w).1 ↔ x ∈ temp_files w)
  ∧ ((∀ file_id, message update ≠ Voice file_id) →
     temp_files (dispatch e update w).1 = temp_files w).
Proof.
  assert (Hsame : (∀ file_id, message update ≠ Voice file_id) →
                  temp_files (dispatch e update w).1 = temp_files w).
  { intros Hv. unfold dispatch. destruct (message update) as [name|text|file_id|].
    - repeat case_decide; [| |by eapply command_effects|done]; done.
    - apply handle_message_effects.
    - by destruct (Hv file_id).
    - done. }
  split; [|exact Hsame].
  destruct (message update) as [name|text|file_id|] eqn:Hm.
  1,2,4: intros x _; rewrite Hsame; [done | intros ? ?; congruence].
  unfold dispatch. rewrite Hm. apply handle_voice_effects.
Qed.

Lemma other_files_untouched_witness :
  "/tmp/keep.txt" ∈ temp_files
    (dispatch env_transcription_down (mkUpdate 1%Z (Voice "voice-1"))
       (initial {[ "/tmp/keep.txt" ]})).1
  ∧ temp_files (dispatch env_up (mkUpdate 1%Z (Text "Hello"))
                  (initial {[ "/tmp/keep.txt" ]})).1 = {[ "/tmp/keep.txt" ]}.
Proof.
  destruct (other_files_untouched env_transcription_down
              (mkUpdate 1%Z (Voice "voice-1")) (initial {[ "/tmp/keep.txt" ]}))
    as [Hother _].
  destruct (other_files_untouched env_up (mkUpdate 1%Z (Text "Hello"))
              (initial {[ "/tmp/keep.txt" ]})) as [_ Hsame].
  split.
  - rewrite Hother by discriminate. cbn [initial temp_files].
    apply elem_of_singleton. reflexivity.
  - rewrite Hsame by discriminate. reflexivity.
Defined.


(** ** When a handler raises *)




(** ** After a reset *)

(** X16.  The first answered message after [/clear] or [/start] leaves
    exactly two turns, the message and its answer, whatever was stored
    before the reset and whether or not the transport takes the reply. *)
Theorem answered_message_after_reset
    (e e' : Env) (user_id : Z) (text ai_response : string) (w w1 : World) :
  w1 = (clear_history e user_id w).1 ∨ w1 = (start e user_id w).1 →
  chat_completions_create e' (request e' user_id text (conversation_history w1))
  = Some ai_response →
  get user_id (conversation_history (handle_message e' user_id text w1).1)
  = [("user", text); ("assistant", ai_response)].
Proof.
  intros Hw1 Hok.
  assert (Hempty : get user_id (conversation_history w1) = []).
  { destruct Hw1 as [-> | ->]; cbn; by rewrite list_clear_eq, get_insert. }
  assert (Hstore : conversation_history (handle_message e' user_id text w1).1
            = update_conversation_history user_id "assistant" ai_response
                (update_conversation_history user_id "user" text
                   (conversation_history w1))).
  { unfold handle_message, try_except, bind, transport.
    rewrite process_message_eq, Hok. cbn.
    by destruct (transport_returns e' _ _). }
  rewrite Hstore, !get_update, Hempty. reflexivity.
Qed.

Lemma answered_message_after_reset_witness :
  get 1%Z (conversation_history
     (handle_message env_up 1%Z "Again"
        (clear_history env_up 1%Z
           (mkWorld (<[1%Z := take 10 twelve_turns]> ∅) ∅ [])).1).1)
  = [("user", "Again"); ("assistant", "Hi there!")].
Proof.
  apply (answered_message_after_reset env_up env_up 1%Z "Again" "Hi there!"
           (mkWorld (<[1%Z := take 10 twelve_turns]> ∅) ∅ [])).
  - left. reflexivity.
  - reflexivity.
Defined.
